(** * cq_gears: the post-processing mixin of [cq_gears/common.py]

    A shallow embedding of [PostProcMixin]: the reflective parameter binder
    of [_post_process] and the five step routines [bore], [recess], [hub],
    [spokes] and [chamfer].

    Modelling choices.
    - Python values that can reach a step are [value]s: [None], an [int], a
      [float], or a tuple/list of values (the source treats lists and tuples
      alike, [isinstance(x, (list, tuple))]).  Other Python values are not
      modelled.
    - Python floats are exact rationals ([Q]); rounding is not modelled.
    - Exceptions are an explicit [result] type; [assert] raises
      [AssertionError] with the message of the source.
    - CadQuery and NumPy are external.  A call of a CadQuery method is
      recorded as a constructor of the term type [cq.t], with the receiver as
      last argument, so that a fluent chain reads in source order with [|>].
      NumPy's transcendental functions are recorded as terms of [np.t].
    - The step routines below record every CadQuery call as made.  Which
      calls CadQuery refuses is not in the source: the statements about a
      returned body are either conditional on the return, or, for [bore],
      made over a kernel that can refuse any call ([bore_on]), where a
      refused call raises [KernelError].
    - The radii of [spokes] are also given with the rounding of every
      float operation as a parameter ([spokes_radii_fl]). *)

From Stdlib Require Import ZArith QArith Lqa.
From stdpp Require Import base option list strings gmap fin_maps.

Local Open Scope string_scope.

(** ** Python values and exceptions *)

#[warnings="-register-all"]
Inductive value : Type :=
| VNone
| VInt (z : Z)
| VFloat (q : Q)
| VTuple (items : list value).

Inductive exn : Type :=
| AssertionError (msg : string)
| TypeError
| ValueError
| ZeroDivisionError
| AttributeError
| KernelError.

Inductive result (A : Type) : Type :=
| Ok (a : A)
| Raise (e : exn).
Arguments Ok {A} a.
Arguments Raise {A} e.

Definition rbind {A B} (c : result A) (k : A -> result B) : result B :=
  match c with
  | Ok a => k a
  | Raise e => Raise e
  end.

Notation "'let*' x ':=' c 'in' k" := (rbind c (fun x => k))
  (at level 10, x name, c at level 100, k at level 200).
Notation "'let*' ' p ':=' c 'in' k" := (rbind c (fun x => match x with p => k end))
  (at level 10, p pattern, c at level 100, k at level 200).
Notation "c ';;' k" := (rbind c (fun _ => k))
  (at level 100, k at level 200, right associativity).

Notation "x |> f" := (f x) (at level 45, left associativity, only parsing).

(** [v is None] *)
Definition is_None (v : value) : bool :=
  match v with
  | VNone => true
  | _ => false
  end.

(** The operand of an arithmetic operator or of a comparison with a number:
    an [int] or a [float]; anything else raises [TypeError]. *)
Definition number (v : value) : result Q :=
  match v with
  | VInt z => Ok (inject_Z z)
  | VFloat q => Ok q
  | VNone | VTuple _ => Raise TypeError
  end.

(** [a / b] on floats. *)
Definition truediv (a b : Q) : result Q :=
  if Qeq_bool b 0 then Raise ZeroDivisionError else Ok (a / b)%Q.

(** [v / d] for a value [v] and a float literal [d]. *)
Definition div_by (v : value) (d : Q) : result Q :=
  let* x := number v in truediv x d.

(** [a > b] on numbers. *)
Definition Qgtb (a b : Q) : bool := negb (Qle_bool a b).

(** [max(a, b)]: the first argument unless the second is greater. *)
Definition py_max (a b : Q) : Q := if Qgtb b a then b else a.

(** [assert cond, msg] *)
Definition py_assert (cond : bool) (msg : string) : result unit :=
  if cond then Ok tt else Raise (AssertionError msg).

(** [range(n)]: needs an [int]. *)
Definition range (n : value) : result (list Z) :=
  match n with
  | VInt z => Ok (seqZ 0 z)
  | _ => Raise TypeError
  end.

(** ** NumPy expressions *)

Module np.
Inductive t : Type :=
| const (q : Q)
| pi
| arcsin (x : t)
| cos (x : t)
| sin (x : t)
| degrees (x : t)
| mul (x y : t)
| div (x y : t)
| sub (x y : t).
End np.

(** ** CadQuery terms *)

Module cq.
Inductive t : Type :=
| Solid (id : nat)
| Workplane (plane : string)
| add (obj : t) (w : t)
| faces (sel : string) (w : t)
| workplane (offset : Q) (w : t)
| circle (r : Q) (w : t)
| cutThruAll (w : t)
| cutBlind (d : Q) (w : t)
| extrude (d : value) (w : t)
| moveTo (x y : np.t) (w : t)
| lineTo (x y : np.t) (w : t)
| radiusArc (x y : np.t) (r : Q) (w : t)
| hLine (d : Q) (w : t)
| vLine (d : Q) (w : t)
| close (w : t)
| revolve (w : t)
| edges (sel : string) (w : t)
| fillet (r : value) (w : t)
| rotate (p1 p2 : Q * Q * Q) (deg : np.t) (w : t)
| cut (tool : t) (w : t)
| val (w : t).
End cq.

(** ** The gear object ([self]) *)

Record gear : Type := {
  width : Q;
  ra : Q;
  working_plane : string;
  axial_plane : string;
  rotation_axis : string
}.

(** The plane and axis names of [GearBase], with a blank of the given
    face width and addendum radius. *)
Definition GearBase (width ra : Q) : gear :=
  {| width := width; ra := ra;
     working_plane := "XY"; axial_plane := "XZ"; rotation_axis := "Z" |}.

(** ** The step routines *)

Section Steps.
Variable self : gear.

(** [bore], lines 85-97. *)
Definition bore (body : cq.t) (bore_d : value) : result cq.t :=
  if is_None bore_d then Ok body else
  let* r := div_by bore_d 2 in
  Ok (cq.Workplane (working_plane self)
      |> cq.add body
      |> cq.faces ("<" ++ rotation_axis self)
      |> cq.workplane 0
      |> cq.circle r
      |> cq.cutThruAll
      |> cq.val).

(** [recess], lines 100-116. *)
Definition recess (body : cq.t) (recess recess_d hub_d : value) : result cq.t :=
  if is_None recess then Ok body else
  let body := cq.Workplane (working_plane self)
              |> cq.add body
              |> cq.faces (">" ++ rotation_axis self)
              |> cq.workplane 0 in
  let* body := (if negb (is_None hub_d)
                then let* r := div_by hub_d 2 in Ok (body |> cq.circle r)
                else Ok body) in
  let* r := div_by recess_d 2 in
  let* depth := number recess in
  Ok (body |> cq.circle r |> cq.cutBlind (- depth) |> cq.val).

(** [hub], lines 119-137. *)
Definition hub (body : cq.t) (hub_length hub_d bore_d : value) : result cq.t :=
  if is_None hub_length then Ok body else
  py_assert (negb (is_None hub_d)) "Hub diameter is not set" ;;
  let body := cq.Workplane (working_plane self)
              |> cq.add body
              |> cq.faces (">" ++ rotation_axis self)
              |> cq.workplane 0 in
  let* body := (if negb (is_None bore_d)
                then let* r := div_by bore_d 2 in Ok (body |> cq.circle r)
                else Ok body) in
  let* r := div_by hub_d 2 in
  let body := body |> cq.circle r |> cq.extrude hub_length in
  Ok (body |> cq.val).

(** The cutout radii of [spokes], lines 149-157: [r1] from the spoke width
    and the inner diameter, [r2] from the outer diameter, each moved by
    [0.0001]. *)
Definition spokes_radii (spokes_id spokes_od spoke_width : value) : result (Q * Q) :=
  let* r1 := (if is_None spokes_id
              then div_by spoke_width 2
              else let* a := div_by spoke_width 2 in
                   let* b := div_by spokes_id 2 in
                   Ok (py_max a b)) in
  let* r2 := div_by spokes_od 2 in
  let r1 := (r1 + (1 # 10000))%Q in
  let r2 := (r2 - (1 # 10000))%Q in
  Ok (r1, r2).

(** [np.arcsin((spoke_width / 2.0) / (d / 2.0))], lines 160 and 161. *)
Definition chord_angle (spoke_width d : value) : result np.t :=
  let* a := div_by spoke_width 2 in
  let* b := div_by d 2 in
  let* x := truediv a b in
  Ok (np.arcsin (np.const x)).

(** The point [(np.cos(a) * r, np.sin(a) * r)]. *)
Definition polar_x (a : np.t) (r : Q) : np.t := np.mul (np.cos a) (np.const r).
Definition polar_y (a : np.t) (r : Q) : np.t := np.mul (np.sin a) (np.const r).

(** The wedge of lines 165-172. *)
Definition spokes_cutout (r1 r2 : Q) (a1 a2 a3 a4 : np.t) : cq.t :=
  cq.Workplane (working_plane self)
  |> cq.workplane (- (1 # 10))
  |> cq.moveTo (polar_x a1 r1) (polar_y a1 r1)
  |> cq.lineTo (polar_x a2 r2) (polar_y a2 r2)
  |> cq.radiusArc (polar_x a3 r2) (polar_y a3 r2) (- r2)
  |> cq.lineTo (polar_x a4 r1) (polar_y a4 r1)
  |> cq.radiusArc (polar_x a1 r1) (polar_y a1 r1) r1
  |> cq.close
  |> cq.extrude (VFloat (width self + 1)).

(** One turn of the loop of lines 179-182. *)
Definition cut_rotated (tau : np.t) (cutout : cq.t) (body : cq.t) (i : Z) : cq.t :=
  body |> cq.cut (cutout |> cq.rotate (0, 0, 0)%Q (0, 0, 1)%Q
                               (np.degrees (np.mul tau (np.const (inject_Z i))))).

(** [spokes], lines 140-184. *)
Definition spokes (body : cq.t)
    (n_spokes spokes_id spokes_od spoke_width spoke_fillet : value) : result cq.t :=
  if is_None n_spokes then Ok body else
  let* n := number n_spokes in
  py_assert (Qgtb n 1) "Number of spokes must be > 1" ;;
  py_assert (negb (is_None spoke_width)) "Spoke width is not set" ;;
  py_assert (negb (is_None spokes_od)) "Outer spokes diameter is not set" ;;
  let* '(r1, r2) := spokes_radii spokes_id spokes_od spoke_width in
  let tau := np.div (np.mul np.pi (np.const 2)) (np.const n) in
  let* a1 := chord_angle spoke_width spokes_id in
  let* a2 := chord_angle spoke_width spokes_od in
  let a3 := np.sub tau a2 in
  let a4 := np.sub tau a1 in
  let cutout := spokes_cutout r1 r2 a1 a2 a3 a4 in
  let cutout := (if negb (is_None spoke_fillet)
                 then cutout |> cq.edges ("|" ++ rotation_axis self)
                             |> cq.fillet spoke_fillet
                 else cutout) in
  let body := cq.Workplane (working_plane self) |> cq.add body in
  let* idx := range n_spokes in
  let body := foldl (cut_rotated tau cutout) body idx in
  Ok (body |> cq.val).

(** The overlap [E] of [chamfer], line 191. *)
Definition E : Q := 1 # 100.

(** Lines 196-200: an unqualified [chamfer] seeds the sides left at
    [None]. *)
Definition chamfer_seed (chamfer side : value) : value :=
  if negb (is_None chamfer) then
    if is_None side then chamfer else side
  else side.

(** Lines 203-206 and 220-223: a list or tuple is unpacked into
    [(wx, wy)], anything else stands for both. *)
Definition extents (side : value) : result (value * value) :=
  match side with
  | VTuple [wx; wy] => Ok (wx, wy)
  | VTuple _ => Raise ValueError
  | w => Ok (w, w)
  end.

(** The revolved triangle of lines 208-213. *)
Definition chamfer_top_cutter (chamfer_top : value) : result cq.t :=
  let* '(wx, wy) := extents chamfer_top in
  let* x := number wx in
  let* y := number wy in
  Ok (cq.Workplane (axial_plane self)
      |> cq.moveTo (np.const (ra self - x)) (np.const (width self + E))
      |> cq.hLine (x + E)
      |> cq.vLine (- y - E)
      |> cq.close
      |> cq.revolve).

(** The revolved triangle of lines 225-230.  [wy] is a coordinate of
    [moveTo] before it is negated, so it is read as a number first. *)
Definition chamfer_bottom_cutter (chamfer_bottom : value) : result cq.t :=
  let* '(wx, wy) := extents chamfer_bottom in
  let* y := number wy in
  let* x := number wx in
  Ok (cq.Workplane (axial_plane self)
      |> cq.moveTo (np.const (ra self + E)) (np.const y)
      |> cq.vLine (- y - E)
      |> cq.hLine (- x - E)
      |> cq.close
      |> cq.revolve).

(** [chamfer], lines 187-237. *)
Definition chamfer (body : cq.t)
    (chamfer chamfer_top chamfer_bottom : value) : result cq.t :=
  if is_None chamfer && is_None chamfer_top && is_None chamfer_bottom
  then Ok body else
  let chamfer_top := chamfer_seed chamfer chamfer_top in
  let chamfer_bottom := chamfer_seed chamfer chamfer_bottom in
  let* body := (if negb (is_None chamfer_top)
                then let* cutter := chamfer_top_cutter chamfer_top in
                     Ok (cq.Workplane (working_plane self)
                         |> cq.add body |> cq.cut cutter)
                else Ok body) in
  let* body := (if negb (is_None chamfer_bottom)
                then let* cutter := chamfer_bottom_cutter chamfer_bottom in
                     Ok (cq.Workplane (working_plane self)
                         |> cq.add body |> cq.cut cutter)
                else Ok body) in
  Ok (body |> cq.val).

End Steps.

(** ** The pipeline *)

(** An entry of [sig.parameters]: a name and a default, [None] for
    [sig.empty]. *)
Record param : Type := {
  name : string;
  default : option value
}.

(** A bound method: its [inspect.signature] without [self], and its call
    with a body and keyword arguments. *)
Record method : Type := {
  signature : list param;
  call : cq.t -> gmap string value -> result cq.t
}.

(** A parameter declared without a default, as all of them are in the
    source. *)
Definition required (k : string) : param := {| name := k; default := None |}.

(** Keyword argument [k] of a call [pp(body, **args)]; a missing one is a
    [TypeError]. *)
Definition kwarg (args : gmap string value) (k : string) : result value :=
  match args !! k with
  | Some v => Ok v
  | None => Raise TypeError
  end.

(** Line 59. *)
Definition postproc_sequence : list string :=
  ["bore"; "recess"; "hub"; "spokes"; "chamfer"].

(** [getattr(self, pp_name)] for the methods of the mixin. *)
Definition getattr (self : gear) (pp_name : string) : option method :=
  if String.eqb pp_name "bore" then
    Some {| signature := required <$> ["body"; "bore_d"];
            call body args :=
              let* bore_d := kwarg args "bore_d" in
              bore self body bore_d |}
  else if String.eqb pp_name "recess" then
    Some {| signature := required <$> ["body"; "recess"; "recess_d"; "hub_d"];
            call body args :=
              let* recess_v := kwarg args "recess" in
              let* recess_d := kwarg args "recess_d" in
              let* hub_d := kwarg args "hub_d" in
              recess self body recess_v recess_d hub_d |}
  else if String.eqb pp_name "hub" then
    Some {| signature := required <$> ["body"; "hub_length"; "hub_d"; "bore_d"];
            call body args :=
              let* hub_length := kwarg args "hub_length" in
              let* hub_d := kwarg args "hub_d" in
              let* bore_d := kwarg args "bore_d" in
              hub self body hub_length hub_d bore_d |}
  else if String.eqb pp_name "spokes" then
    Some {| signature := required <$> ["body"; "n_spokes"; "spokes_id"; "spokes_od";
                                       "spoke_width"; "spoke_fillet"];
            call body args :=
              let* n_spokes := kwarg args "n_spokes" in
              let* spokes_id := kwarg args "spokes_id" in
              let* spokes_od := kwarg args "spokes_od" in
              let* spoke_width := kwarg args "spoke_width" in
              let* spoke_fillet := kwarg args "spoke_fillet" in
              spokes self body n_spokes spokes_id spokes_od spoke_width spoke_fillet |}
  else if String.eqb pp_name "chamfer" then
    Some {| signature := required <$> ["body"; "chamfer"; "chamfer_top"; "chamfer_bottom"];
            call body args :=
              let* chamfer_v := kwarg args "chamfer" in
              let* chamfer_top := kwarg args "chamfer_top" in
              let* chamfer_bottom := kwarg args "chamfer_bottom" in
              chamfer self body chamfer_v chamfer_top chamfer_bottom |}
  else None.

(** Lines 73-74: every parameter but [body], with its default, or [None]
    where it has none. *)
Definition default_args (sig : list param) : gmap string value :=
  foldl (fun args v =>
           if String.eqb (name v) "body" then args
           else <[name v := match default v with
                            | Some d => d
                            | None => VNone
                            end]> args)
        ∅ sig.

(** Lines 76-78: the pool overrides the names that are in [args].  The
    keys of a dict are distinct, so the order of the loop does not show in
    its result. *)
Definition override (params args : gmap string value) : gmap string value :=
  map_fold (fun k v args =>
              if decide (is_Some (args !! k)) then <[k := v]> args else args)
           args params.

(** The parameter binder, lines 73-78. *)
Definition bind_args (sig : list param) (params : gmap string value)
    : gmap string value :=
  override params (default_args sig).

(** The loop of [_post_process] over the names still to run. *)
Fixpoint run_sequence (self : gear) (names : list string)
    (body : cq.t) (params : gmap string value) : result cq.t :=
  match names with
  | [] => Ok body
  | pp_name :: rest =>
      match getattr self pp_name with
      | None => Raise AttributeError
      | Some pp =>
          let args := bind_args (signature pp) params in
          let* body := call pp body args in
          run_sequence self rest body params
      end
  end.

(** [_post_process], lines 67-82. *)
Definition _post_process (self : gear) (body : cq.t)
    (params : gmap string value) : result cq.t :=
  run_sequence self postproc_sequence body params.

(** The names a pool entry can bind: the declared parameters of the steps
    of the sequence. *)
Definition declared_names (self : gear) : list string :=
  pp_name ← postproc_sequence;
  match getattr self pp_name with
  | Some pp => name <$> signature pp
  | None => []
  end.


(** ** Notions used in the statements *)

(** A concrete blank for the examples: face width 5, addendum radius 10. *)
Definition blank_gear : gear := GearBase 5 10.

(** What [bore] hands to CadQuery for a diameter [d]. *)
Definition bore_cut (self : gear) (body : cq.t) (d : Q) : cq.t :=
  cq.Workplane (working_plane self)
  |> cq.add body
  |> cq.faces ("<" ++ rotation_axis self)
  |> cq.workplane 0
  |> cq.circle (d / 2)
  |> cq.cutThruAll
  |> cq.val.

(** What a step receives for the name [k]: the pool's value, [None] when
    the pool has none. *)
Definition pool_get (params : gmap string value) (k : string) : value :=
  match params !! k with
  | Some x => x
  | None => VNone
  end.

(** The tools of the cuts made along a workplane chain, oldest first, up
    to the point where the chain took its solid in. *)
Fixpoint cut_tools (w : cq.t) : list cq.t :=
  match w with
  | cq.cut tool w' => cut_tools w' ++ [tool]
  | cq.val w' => cut_tools w'
  | _ => []
  end.

(** The cutter of turn [i] of the loop of [spokes]. *)
Definition rotated_cutout (tau : np.t) (cutout : cq.t) (i : Z) : cq.t :=
  cq.rotate (0, 0, 0)%Q (0, 0, 1)%Q
            (np.degrees (np.mul tau (np.const (inject_Z i)))) cutout.

(** The workplane on the [+axis] face on which [recess] and [hub] draw. *)
Definition top_face (self : gear) (body : cq.t) : cq.t :=
  cq.Workplane (working_plane self)
  |> cq.add body
  |> cq.faces (">" ++ rotation_axis self)
  |> cq.workplane 0.

(** ** CadQuery calls that can be refused *)

(** A call of a CadQuery method, for a kernel that refuses the calls on
    which [refuses] holds: a refused call raises, any other returns. *)
Definition cq_call (refuses : cq.t -> bool) (t : cq.t) : result cq.t :=
  if refuses t then Raise KernelError else Ok t.

(** [bore], lines 85-97, over such a kernel.  The receiver of [circle] is
    built before its argument [bore_d / 2.0] is computed. *)
Definition bore_on (refuses : cq.t -> bool) (self : gear)
    (body : cq.t) (bore_d : value) : result cq.t :=
  if is_None bore_d then Ok body else
  let* w := cq_call refuses (cq.Workplane (working_plane self)) in
  let* w := cq_call refuses (cq.add body w) in
  let* w := cq_call refuses (cq.faces ("<" ++ rotation_axis self) w) in
  let* w := cq_call refuses (cq.workplane 0 w) in
  let* r := div_by bore_d 2 in
  let* w := cq_call refuses (cq.circle r w) in
  let* w := cq_call refuses (cq.cutThruAll w) in
  cq_call refuses (cq.val w).

(** The CadQuery calls [bore] makes for a diameter [d], in order. *)
Definition bore_calls (self : gear) (body : cq.t) (d : Q) : list cq.t :=
  let w1 := cq.Workplane (working_plane self) in
  let w2 := cq.add body w1 in
  let w3 := cq.faces ("<" ++ rotation_axis self) w2 in
  let w4 := cq.workplane 0 w3 in
  let w5 := cq.circle (d / 2) w4 in
  let w6 := cq.cutThruAll w5 in
  let w7 := cq.val w6 in
  [w1; w2; w3; w4; w5; w6; w7].

(** A kernel that refuses to draw a circle of radius zero or less, and
    nothing else. *)
Definition refuses_flat_circle (t : cq.t) : bool :=
  match t with
  | cq.circle r _ => Qle_bool r 0
  | _ => false
  end.

(** ** Float arithmetic with rounding *)

(** Lines 149-157 on floats, every operation followed by the rounding
    [fl]: the divisions by [2.0], the literal [0.0001], the addition and
    the subtraction.  [spokes_id] is [None] or a float. *)
Definition spokes_radii_fl (fl : Q -> Q) (spokes_id : option Q)
    (spokes_od spoke_width : Q) : Q * Q :=
  let r1 := match spokes_id with
            | None => fl (spoke_width / 2)%Q
            | Some i => py_max (fl (spoke_width / 2)%Q) (fl (i / 2)%Q)
            end in
  let r2 := fl (spokes_od / 2)%Q in
  let r1 := fl (r1 + fl (1 # 10000))%Q in
  let r2 := fl (r2 - fl (1 # 10000))%Q in
  (r1, r2).

(** What the proofs use of rounding to nearest, for a set [F] of
    representable numbers: between two representable numbers the rounded
    value is representable and no further from the exact one than any
    representable number on the other side of it; and the float written
    [0.0001] lies in [[0.0001, 0.000125)]. *)
Record rounds_to_nearest (F : Q -> Prop) (fl : Q -> Q) : Prop := {
  fl_representable :
    forall x lo hi, F lo -> F hi -> (lo <= x)%Q -> (x <= hi)%Q -> F (fl x);
  fl_error_above :
    forall x y hi, F y -> F hi -> (y <= x)%Q -> (x <= hi)%Q -> (fl x - x <= x - y)%Q;
  fl_error_below :
    forall x y lo, F y -> F lo -> (lo <= x)%Q -> (x <= y)%Q -> (x - fl x <= y - x)%Q;
  fl_epsilon :
    (1 # 10000 <= fl (1 # 10000))%Q /\ (fl (1 # 10000) < 1 # 8000)%Q
}.

(** * Properties *)

(** ** Arithmetic on values *)

Lemma div_by_two (v : value) (x : Q) : number v = Ok x -> div_by v 2 = Ok (x / 2)%Q.
Proof. unfold div_by. intros ->. reflexivity. Qed.

Lemma number_not_None (v : value) (x : Q) : number v = Ok x -> is_None v = false.
Proof. destruct v; simpl; congruence. Qed.

Lemma is_None_false (v : value) : is_None v = false <-> v <> VNone.
Proof. destruct v; simpl; split; congruence. Qed.

Lemma Qgtb_true (a b : Q) : Qgtb a b = true <-> (b < a)%Q.
Proof.
  unfold Qgtb. rewrite negb_true_iff. split.
  - intros Hb. apply Qnot_le_lt. intros Hle.
    apply Qle_bool_iff in Hle. congruence.
  - intros Hlt. destruct (Qle_bool a b) eqn:Hb; [|reflexivity].
    apply Qle_bool_iff in Hb. exfalso. exact (Qlt_not_le _ _ Hlt Hb).
Qed.

Lemma Qgtb_false (a b : Q) : Qgtb a b = false <-> (a <= b)%Q.
Proof.
  unfold Qgtb. rewrite negb_false_iff. apply Qle_bool_iff.
Qed.

(** ** The steps with their trigger absent *)

(** C3. Every step returns the input body unchanged when its trigger
    parameter is [None], whatever its other parameters are: [bore_d] for
    [bore], [recess] for [recess], [hub_length] for [hub], [n_spokes] for
    [spokes], and all three of [chamfer], [chamfer_top] and
    [chamfer_bottom] for [chamfer]. *)
Theorem absent_trigger_is_noop (self : gear) (body : cq.t) :
  bore self body VNone = Ok body
  /\ (forall recess_d hub_d, recess self body VNone recess_d hub_d = Ok body)
  /\ (forall hub_d bore_d, hub self body VNone hub_d bore_d = Ok body)
  /\ (forall spokes_id spokes_od spoke_width spoke_fillet,
        spokes self body VNone spokes_id spokes_od spoke_width spoke_fillet = Ok body)
  /\ chamfer self body VNone VNone VNone = Ok body.
Proof. repeat split. Qed.

(** ** Bore *)

(** With a kernel that refuses nothing, [bore_on] is [bore]. *)
Lemma bore_on_never_refused (self : gear) (body : cq.t) (bore_d : value) :
  bore_on (fun _ => false) self body bore_d = bore self body bore_d.
Proof.
  unfold bore_on, bore. destruct (is_None bore_d); [reflexivity|]. simpl.
  destruct (div_by bore_d 2); reflexivity.
Qed.

(** The outcome of [bore_on] for a float. *)
Lemma bore_on_result (refuses : cq.t -> bool) (self : gear) (body : cq.t) (d : Q) :
  bore_on refuses self body (VFloat d)
  = if existsb refuses (bore_calls self body d)
    then Raise KernelError
    else Ok (bore_cut self body d).
Proof.
  unfold bore_on, bore_calls, bore_cut, cq_call. cbn [is_None existsb].
  destruct (refuses (cq.Workplane (working_plane self))); [reflexivity|].
  cbn [rbind orb].
  destruct (refuses (cq.add body _)); [reflexivity|]. cbn [rbind orb].
  destruct (refuses (cq.faces _ _)); [reflexivity|]. cbn [rbind orb].
  destruct (refuses (cq.workplane _ _)); [reflexivity|]. cbn [rbind orb].
  rewrite (div_by_two (VFloat d) d eq_refl). cbn [rbind].
  destruct (refuses (cq.circle _ _)); [reflexivity|]. cbn [rbind orb].
  destruct (refuses (cq.cutThruAll _)); [reflexivity|]. cbn [rbind orb].
  destruct (refuses (cq.val _)); reflexivity.
Qed.

(** C5, as the code has it. [bore] makes no check on a supplied float
    diameter, whatever its sign, and raises no error of its own: it makes
    its CadQuery calls in order, with a circle of radius [bore_d / 2.0];
    when the kernel refuses one of them the step ends with the kernel's
    exception and no cut, and otherwise it returns the through-all cut. *)
Theorem bore_makes_no_check (refuses : cq.t -> bool) (self : gear)
    (body : cq.t) (d : Q) :
  bore_on refuses self body (VFloat d)
  = if existsb refuses (bore_calls self body d)
    then Raise KernelError
    else Ok (bore_cut self body d).
Proof. apply bore_on_result. Qed.

(** C5 as stated fails. With the diameter [-1.0], no kernel makes [bore]
    raise an assertion of its own; under a kernel that refuses the circle
    of radius [-0.5] the step ends with the kernel's exception, raised by
    [circle]. *)
Lemma bore_negative_diameter_no_own_error :
  (-1 <= 0)%Q
  /\ bore_on refuses_flat_circle blank_gear (cq.Solid 0) (VFloat (-1))
     = Raise KernelError
  /\ ~ (exists refuses msg,
          bore_on refuses blank_gear (cq.Solid 0) (VFloat (-1))
          = Raise (AssertionError msg)).
Proof.
  split; [discriminate|]. split; [reflexivity|].
  intros (refuses & msg & H). rewrite bore_on_result in H.
  destruct (existsb refuses _); discriminate H.
Qed.

(** ** Hub *)

(** C6. With a hub length given and the hub diameter [None], [hub] stops at
    its assertion: it raises [AssertionError] and returns no body. *)
Theorem hub_length_without_diameter_fails
    (self : gear) (body : cq.t) (hub_length bore_d : value) :
  hub_length <> VNone ->
  hub self body hub_length VNone bore_d = Raise (AssertionError "Hub diameter is not set").
Proof.
  intros Hl. apply is_None_false in Hl. unfold hub. rewrite Hl. reflexivity.
Qed.

Lemma hub_length_without_diameter_fails_witness :
  VFloat 5 <> VNone
  /\ hub blank_gear (cq.Solid 0) (VFloat 5) VNone VNone
     = Raise (AssertionError "Hub diameter is not set").
Proof.
  split; [discriminate|].
  apply (hub_length_without_diameter_fails blank_gear (cq.Solid 0) (VFloat 5) VNone).
  discriminate.
Defined.

(** ** Spokes *)

(** C9. A spoke count that is a number not greater than 1 stops [spokes] at
    its first assertion: it raises [AssertionError] and no cut is made. *)
Theorem spokes_count_at_most_one_fails (self : gear) (body : cq.t)
    (n_spokes spokes_id spokes_od spoke_width spoke_fillet : value) (n : Q) :
  number n_spokes = Ok n ->
  (n <= 1)%Q ->
  spokes self body n_spokes spokes_id spokes_od spoke_width spoke_fillet
  = Raise (AssertionError "Number of spokes must be > 1").
Proof.
  intros Hn Hle. unfold spokes.
  rewrite (number_not_None _ _ Hn), Hn. simpl.
  apply Qgtb_false in Hle. rewrite Hle. reflexivity.
Qed.

Lemma spokes_count_at_most_one_fails_witness :
  number (VInt 1) = Ok 1%Q /\ (1 <= 1)%Q
  /\ spokes blank_gear (cq.Solid 0) (VInt 1) (VFloat 6) (VFloat 18) (VFloat 2) VNone
     = Raise (AssertionError "Number of spokes must be > 1").
Proof.
  split; [reflexivity|]. split; [discriminate|].
  apply (spokes_count_at_most_one_fails blank_gear (cq.Solid 0)
           (VInt 1) (VFloat 6) (VFloat 18) (VFloat 2) VNone 1).
  - reflexivity.
  - discriminate.
Defined.

(** Line 160 divides [spokes_id] by [2.0] whether or not it is [None]. *)
Lemma chord_angle_None (spoke_width : value) (w : Q) :
  number spoke_width = Ok w -> chord_angle spoke_width VNone = Raise TypeError.
Proof. intros Hw. unfold chord_angle. rewrite (div_by_two _ _ Hw). reflexivity. Qed.

(** With the inner diameter [None], a spoke count above 1 and numbers for
    the width and the outer diameter, [spokes] computes its radii and then
    raises [TypeError] at line 160. *)
Lemma spokes_without_inner_diameter (self : gear) (body : cq.t)
    (n_spokes spokes_od spoke_width spoke_fillet : value) (n w d : Q) :
  number n_spokes = Ok n -> (1 < n)%Q ->
  number spoke_width = Ok w -> number spokes_od = Ok d ->
  spokes_radii VNone spokes_od spoke_width
  = Ok ((w / 2 + (1 # 10000))%Q, (d / 2 - (1 # 10000))%Q)
  /\ spokes self body n_spokes VNone spokes_od spoke_width spoke_fillet = Raise TypeError.
Proof.
  intros Hn Hlt Hw Hd.
  assert (Hr : spokes_radii VNone spokes_od spoke_width
               = Ok ((w / 2 + (1 # 10000))%Q, (d / 2 - (1 # 10000))%Q)).
  { unfold spokes_radii. simpl.
    rewrite (div_by_two _ _ Hw), (div_by_two _ _ Hd). reflexivity. }
  split; [exact Hr|].
  unfold spokes.
  rewrite (number_not_None _ _ Hn), Hn. simpl.
  apply Qgtb_true in Hlt. rewrite Hlt. simpl.
  rewrite (number_not_None _ _ Hw), (number_not_None _ _ Hd). simpl.
  rewrite Hr. simpl.
  rewrite (chord_angle_None _ _ Hw). reflexivity.
Qed.

(** C2, on the input of the specification's scenario: five spokes, outer
    diameter 18, width 2, no inner diameter.  The inner radius is taken
    from [spoke_width / 2.0], and then the step raises [TypeError] instead
    of returning a body. *)
Theorem spokes_scenario_without_inner_diameter :
  spokes_radii VNone (VFloat 18) (VFloat 2)
  = Ok ((2 / 2 + (1 # 10000))%Q, (18 / 2 - (1 # 10000))%Q)
  /\ spokes blank_gear (cq.Solid 0) (VInt 5) VNone (VFloat 18) (VFloat 2) VNone
     = Raise TypeError.
Proof.
  apply (spokes_without_inner_diameter blank_gear (cq.Solid 0)
           (VInt 5) (VFloat 18) (VFloat 2) VNone 5 2 18); reflexivity.
Qed.

Lemma py_max_ge_l (a b : Q) : (a <= py_max a b)%Q.
Proof.
  unfold py_max. destruct (Qgtb b a) eqn:Hb.
  - apply Qgtb_true in Hb. apply Qlt_le_weak, Hb.
  - apply Qle_refl.
Qed.

Lemma py_max_ge_r (a b : Q) : (b <= py_max a b)%Q.
Proof.
  unfold py_max. destruct (Qgtb b a) eqn:Hb.
  - apply Qle_refl.
  - apply Qgtb_false in Hb. exact Hb.
Qed.

(** With no rounding, [spokes_radii_fl] gives the radii of
    [spokes_radii] on floats. *)
Lemma spokes_radii_fl_exact (spokes_od spoke_width : Q) :
  spokes_radii VNone (VFloat spokes_od) (VFloat spoke_width)
  = Ok (spokes_radii_fl (fun x => x) None spokes_od spoke_width)
  /\ forall i,
       spokes_radii (VFloat i) (VFloat spokes_od) (VFloat spoke_width)
       = Ok (spokes_radii_fl (fun x => x) (Some i) spokes_od spoke_width).
Proof. split; [|intros i]; reflexivity. Qed.

(** A representable number is its own rounding. *)
Lemma rounds_to_nearest_exact (F : Q -> Prop) (fl : Q -> Q) (x : Q) :
  rounds_to_nearest F fl -> F x -> F (fl x) /\ (fl x <= x)%Q /\ (x <= fl x)%Q.
Proof.
  intros [HF Hup Hdn _] Hx.
  pose proof (HF x x x Hx Hx (Qle_refl x) (Qle_refl x)) as H1.
  pose proof (Hup x x x Hx Hx (Qle_refl x) (Qle_refl x)) as H2.
  pose proof (Hdn x x x Hx Hx (Qle_refl x) (Qle_refl x)) as H3.
  split; [exact H1|]. split; lra.
Qed.

(** The two roundings of lines 156-157 cannot close a gap of [0.0005]
    between representable radii. *)
Lemma rounded_radii_apart (F : Q -> Prop) (fl : Q -> Q) (m D : Q) :
  rounds_to_nearest F fl ->
  F m -> F D -> (m + (1 # 2000) <= D)%Q ->
  (fl (m + fl (1 # 10000)) < fl (D - fl (1 # 10000)))%Q.
Proof.
  intros [HF Hup Hdn [He1 He2]] Hm HD Hgap.
  assert (H1 : (fl (m + fl (1 # 10000)) - (m + fl (1 # 10000))
                <= m + fl (1 # 10000) - m)%Q)
    by (apply (Hup _ m D Hm HD); lra).
  assert (H2 : (D - fl (1 # 10000) - fl (D - fl (1 # 10000))
                <= D - (D - fl (1 # 10000)))%Q)
    by (apply (Hdn _ D m HD Hm); lra).
  lra.
Qed.

(** C4, as the code has it. For floats whose halves are representable,
    with the inner diameter [None] or a float, and with the spoke width and
    a given inner diameter each at least [0.001] below the outer diameter,
    the radii computed by lines 149-157 under rounding to nearest satisfy
    [r1 < r2]. *)
Theorem spokes_radii_fl_ordered (F : Q -> Prop) (fl : Q -> Q)
    (spokes_id : option Q) (spokes_od spoke_width : Q) :
  rounds_to_nearest F fl ->
  F (spoke_width / 2)%Q ->
  F (spokes_od / 2)%Q ->
  (forall i, spokes_id = Some i -> F (i / 2)%Q /\ (i + (1 # 1000) <= spokes_od)%Q) ->
  (spoke_width + (1 # 1000) <= spokes_od)%Q ->
  (fst (spokes_radii_fl fl spokes_id spokes_od spoke_width)
   < snd (spokes_radii_fl fl spokes_id spokes_od spoke_width))%Q.
Proof.
  intros Hfl Hw Hd Hi Hwd. unfold spokes_radii_fl. cbn [fst snd].
  destruct (rounds_to_nearest_exact F fl _ Hfl Hw) as (HFa & Ha1 & Ha2).
  destruct (rounds_to_nearest_exact F fl _ Hfl Hd) as (HFD & HD1 & HD2).
  assert (Hhalf : (spoke_width / 2 + (1 # 2000) <= spokes_od / 2)%Q).
  { unfold Qdiv. change (/ 2)%Q with (1 # 2)%Q. lra. }
  destruct spokes_id as [i|].
  - destruct (Hi i eq_refl) as [HFi Hid].
    destruct (rounds_to_nearest_exact F fl _ Hfl HFi) as (HFb & Hb1 & Hb2).
    assert (Hhalf' : (i / 2 + (1 # 2000) <= spokes_od / 2)%Q).
    { unfold Qdiv. change (/ 2)%Q with (1 # 2)%Q. lra. }
    apply (rounded_radii_apart F fl _ _ Hfl); [| exact HFD |].
    + unfold py_max. destruct (Qgtb _ _); assumption.
    + unfold py_max. destruct (Qgtb _ _); lra.
  - apply (rounded_radii_apart F fl _ _ Hfl HFa HFD). lra.
Qed.

Lemma spokes_radii_fl_ordered_witness :
  (fst (spokes_radii_fl (fun x => x) (Some 6%Q) 18 2)
   < snd (spokes_radii_fl (fun x => x) (Some 6%Q) 18 2))%Q.
Proof.
  apply (spokes_radii_fl_ordered (fun _ => True) (fun x => x) (Some 6%Q) 18 2).
  - constructor.
    + intros; exact I.
    + intros x y hi _ _ Hy _. lra.
    + intros x y lo _ _ _ Hy. lra.
    + split; [apply Qle_refl | reflexivity].
  - exact I.
  - exact I.
  - intros i Hi. injection Hi as <-. split; [exact I | discriminate].
  - discriminate.
Defined.

(** C4 as stated fails. Width 1, inner diameter 3 and outer diameter 3.0001
    are positive, with the width and the inner diameter below the outer
    diameter, and no assertion of [spokes] rejects them; the radii come out
    as [r1 = 1.5001] and [r2 = 1.49995]. *)
Lemma spokes_radii_not_ordered :
  (0 < 1)%Q /\ (0 < 3)%Q /\ (3 < 30001 # 10000)%Q /\ (1 < 30001 # 10000)%Q
  /\ exists r1 r2,
       spokes_radii (VFloat 3) (VFloat (30001 # 10000)) (VFloat 1) = Ok (r1, r2)
       /\ ~ (r1 < r2)%Q.
Proof.
  repeat (split; [reflexivity|]).
  eexists _, _. split; [reflexivity|].
  vm_compute. discriminate.
Qed.

(** ** Chamfer *)

Lemma extents_number (w : value) (q : Q) : number w = Ok q -> extents w = Ok (w, w).
Proof. destruct w; simpl; congruence. Qed.

Lemma chamfer_top_cutter_pair (self : gear) (w : value) (q : Q) :
  number w = Ok q ->
  chamfer_top_cutter self w = chamfer_top_cutter self (VTuple [w; w]).
Proof.
  intros Hw. unfold chamfer_top_cutter.
  rewrite (extents_number _ _ Hw). reflexivity.
Qed.

Lemma chamfer_bottom_cutter_pair (self : gear) (w : value) (q : Q) :
  number w = Ok q ->
  chamfer_bottom_cutter self w = chamfer_bottom_cutter self (VTuple [w; w]).
Proof.
  intros Hw. unfold chamfer_bottom_cutter.
  rewrite (extents_number _ _ Hw). reflexivity.
Qed.

Lemma chamfer_seed_given (c side : value) : side <> VNone -> chamfer_seed c side = side.
Proof.
  intros Hs. apply is_None_false in Hs. unfold chamfer_seed.
  rewrite Hs. destruct (is_None c); reflexivity.
Qed.

(** C7. A number [w] given as the chamfer of a face yields the same cutter
    as the pair [(w, w)], for the top and for the bottom face, and so the
    same result of [chamfer], whatever the other two parameters are; in
    particular [chamfer=w] alone gives the result of
    [chamfer_top=(w, w), chamfer_bottom=(w, w)]. *)
Theorem chamfer_scalar_is_pair (self : gear) (body : cq.t) (w : value) (q : Q) :
  number w = Ok q ->
  chamfer_top_cutter self w = chamfer_top_cutter self (VTuple [w; w])
  /\ chamfer_bottom_cutter self w = chamfer_bottom_cutter self (VTuple [w; w])
  /\ (forall c cb, chamfer self body c w cb = chamfer self body c (VTuple [w; w]) cb)
  /\ (forall c ct, chamfer self body c ct w = chamfer self body c ct (VTuple [w; w]))
  /\ chamfer self body w VNone VNone
     = chamfer self body VNone (VTuple [w; w]) (VTuple [w; w]).
Proof.
  intros Hw.
  pose proof (chamfer_top_cutter_pair self w q Hw) as Htop.
  pose proof (chamfer_bottom_cutter_pair self w q Hw) as Hbot.
  pose proof (number_not_None _ _ Hw) as Hnone.
  assert (Hne : w <> VNone) by (apply is_None_false; exact Hnone).
  split; [exact Htop|]. split; [exact Hbot|]. repeat split.
  - intros c cb. unfold chamfer.
    rewrite (chamfer_seed_given c w Hne).
    rewrite (chamfer_seed_given c (VTuple [w; w])) by discriminate.
    rewrite Hnone, Htop. simpl. rewrite !andb_false_r. reflexivity.
  - intros c ct. unfold chamfer.
    rewrite (chamfer_seed_given c w Hne).
    rewrite (chamfer_seed_given c (VTuple [w; w])) by discriminate.
    rewrite Hnone, Hbot. simpl. rewrite !andb_false_r. reflexivity.
  - unfold chamfer, chamfer_seed. rewrite Hnone. simpl.
    rewrite Hnone, Htop, Hbot. reflexivity.
Qed.

Lemma chamfer_scalar_is_pair_witness :
  number (VFloat 1) = Ok 1%Q
  /\ chamfer blank_gear (cq.Solid 0) (VFloat 1) VNone VNone
     = chamfer blank_gear (cq.Solid 0) VNone
         (VTuple [VFloat 1; VFloat 1]) (VTuple [VFloat 1; VFloat 1]).
Proof.
  split; [reflexivity|].
  apply (chamfer_scalar_is_pair blank_gear (cq.Solid 0) (VFloat 1) 1). reflexivity.
Defined.

(** C8. A supplied [chamfer] stands in for [chamfer_top] exactly when
    [chamfer_top] is [None], and for [chamfer_bottom] exactly when
    [chamfer_bottom] is [None]; a side that is given keeps its own value.
    The step then behaves as if called with those two values and no
    [chamfer]. *)
Theorem chamfer_seeds_absent_sides (self : gear) (body : cq.t)
    (c chamfer_top chamfer_bottom : value) :
  c <> VNone ->
  chamfer_seed c chamfer_top = (if is_None chamfer_top then c else chamfer_top)
  /\ chamfer_seed c chamfer_bottom = (if is_None chamfer_bottom then c else chamfer_bottom)
  /\ chamfer self body c chamfer_top chamfer_bottom
     = chamfer self body VNone
         (if is_None chamfer_top then c else chamfer_top)
         (if is_None chamfer_bottom then c else chamfer_bottom).
Proof.
  intros Hc. apply is_None_false in Hc.
  assert (Hseed : forall side, chamfer_seed c side = if is_None side then c else side).
  { intros side. unfold chamfer_seed. rewrite Hc. reflexivity. }
  split; [apply Hseed|]. split; [apply Hseed|].
  unfold chamfer, chamfer_seed. rewrite Hc.
  destruct (is_None chamfer_top) eqn:Ht, (is_None chamfer_bottom) eqn:Hb;
    simpl; rewrite ?Hc, ?Ht, ?Hb; reflexivity.
Qed.

Lemma chamfer_seeds_absent_sides_witness :
  VFloat 1 <> VNone
  /\ chamfer blank_gear (cq.Solid 0) (VFloat 1) (VFloat 2) VNone
     = chamfer blank_gear (cq.Solid 0) VNone (VFloat 2) (VFloat 1).
Proof.
  split; [discriminate|].
  apply (chamfer_seeds_absent_sides blank_gear (cq.Solid 0) (VFloat 1) (VFloat 2) VNone).
  discriminate.
Defined.

(** ** The parameter binder *)

(** The value line 73 gives a parameter before the pool is looked at. *)
Lemma default_step_lookup_ne (args : gmap string value) (v : param) (k : string) :
  name v <> k ->
  (if String.eqb (name v) "body" then args
   else <[name v := match default v with Some d => d | None => VNone end]> args) !! k
  = args !! k.
Proof.
  intros Hne. destruct (String.eqb (name v) "body"); [reflexivity|].
  apply lookup_insert_ne, Hne.
Qed.

Lemma foldl_default_lookup_notin (sig : list param) (k : string) :
  k ∉ name <$> sig ->
  forall acc : gmap string value,
    foldl (fun args v =>
             if String.eqb (name v) "body" then args
             else <[name v := match default v with Some d => d | None => VNone end]> args)
          acc sig !! k
    = acc !! k.
Proof.
  induction sig as [|v sig IH]; intros Hk acc; simpl; [reflexivity|].
  rewrite fmap_cons in Hk. apply not_elem_of_cons in Hk as [Hne Hk].
  rewrite (IH Hk). apply default_step_lookup_ne. congruence.
Qed.

Lemma default_args_notin (sig : list param) (k : string) :
  k ∉ name <$> sig -> default_args sig !! k = None.
Proof.
  intros Hk. unfold default_args.
  rewrite (foldl_default_lookup_notin sig k Hk). apply lookup_empty.
Qed.

Lemma default_args_lookup (sig : list param) (v : param) :
  NoDup (name <$> sig) ->
  v ∈ sig ->
  name v <> "body" ->
  default_args sig !! name v
  = Some (match default v with Some d => d | None => VNone end).
Proof.
  unfold default_args. generalize (∅ : gmap string value).
  induction sig as [|u sig IH]; intros acc Hnd Hin Hbody; simpl.
  - inversion Hin.
  - rewrite fmap_cons in Hnd. apply NoDup_cons in Hnd as [Hu Hnd].
    apply elem_of_cons in Hin as [<- | Hin].
    + rewrite (foldl_default_lookup_notin sig (name v) Hu).
      apply String.eqb_neq in Hbody. rewrite Hbody. apply lookup_insert_eq.
    + apply IH; assumption.
Qed.

(** Lines 76-78 read through a lookup: a name of [args] takes the pool's
    value when the pool has one, and no name is added. *)
Lemma override_lookup (params args : gmap string value) (k : string) :
  override params args !! k
  = match args !! k with
    | Some d => Some (match params !! k with Some x => x | None => d end)
    | None => None
    end.
Proof.
  unfold override. revert k.
  apply (map_fold_weak_ind
           (fun (r : gmap string value) (m : gmap string value) =>
              forall k, r !! k = match args !! k with
                                 | Some d => Some (match m !! k with
                                                   | Some x => x
                                                   | None => d
                                                   end)
                                 | None => None
                                 end)).
  - intros k. rewrite lookup_empty. destruct (args !! k); reflexivity.
  - intros i x m r Hi IH k.
    destruct (decide (i = k)) as [-> | Hne].
    + rewrite lookup_insert_eq. pose proof (IH k) as Hk.
      case_decide as Hsome.
      * rewrite lookup_insert_eq. destruct (args !! k); [reflexivity|].
        rewrite Hk in Hsome. destruct Hsome; discriminate.
      * rewrite Hk. destruct (args !! k); [|reflexivity].
        exfalso. apply Hsome. rewrite Hk. eauto.
    + rewrite (lookup_insert_ne m i k x Hne).
      case_decide; [rewrite lookup_insert_ne by exact Hne|]; apply IH.
Qed.

Lemma bind_args_lookup (sig : list param) (params : gmap string value) (k : string) :
  bind_args sig params !! k
  = match default_args sig !! k with
    | Some d => Some (match params !! k with Some x => x | None => d end)
    | None => None
    end.
Proof. apply override_lookup. Qed.

(** A pool entry under a name that the signature does not bind leaves the
    bound arguments as they are. *)
Lemma bind_args_insert_unbound (sig : list param) (params : gmap string value)
    (k : string) (x : value) :
  default_args sig !! k = None ->
  bind_args sig (<[k := x]> params) = bind_args sig params.
Proof.
  intros Hk. apply map_eq. intros i. rewrite !bind_args_lookup.
  destruct (default_args sig !! i) eqn:Hi; [|reflexivity].
  rewrite lookup_insert_ne; [reflexivity|]. congruence.
Qed.

(** C1, as the code has it. A declared parameter other than [body] that
    has no default and that the pool does not supply is bound to [None];
    the binder has no failure. *)
Theorem bind_args_missing_is_None (sig : list param) (params : gmap string value)
    (v : param) :
  NoDup (name <$> sig) ->
  v ∈ sig ->
  name v <> "body" ->
  default v = None ->
  params !! name v = None ->
  bind_args sig params !! name v = Some VNone.
Proof.
  intros Hnd Hin Hbody Hdef Hpool.
  rewrite bind_args_lookup, (default_args_lookup sig v Hnd Hin Hbody), Hdef, Hpool.
  reflexivity.
Qed.

Lemma bind_args_missing_is_None_witness :
  bind_args (required <$> ["body"; "hub_length"; "hub_d"; "bore_d"])
            {[ "hub_length" := VFloat 5 ]} !! "hub_d" = Some VNone.
Proof.
  apply (bind_args_missing_is_None
           (required <$> ["body"; "hub_length"; "hub_d"; "bore_d"])
           {[ "hub_length" := VFloat 5 ]} (required "hub_d")).
  - apply (bool_decide_unpack _). vm_compute. exact I.
  - do 2 apply list_elem_of_further. apply list_elem_of_here.
  - discriminate.
  - reflexivity.
  - reflexivity.
Defined.

(** C1 as stated fails. [bore_d] is declared without a default and the
    empty pool does not supply it: the binder binds it to [None], and the
    whole pipeline, no parameter of which is then supplied, returns the
    body without an error. *)
Lemma binder_missing_no_error :
  default (required "bore_d") = None
  /\ (∅ : gmap string value) !! "bore_d" = None
  /\ bind_args (required <$> ["body"; "bore_d"]) ∅ !! "bore_d" = Some VNone
  /\ _post_process blank_gear (cq.Solid 0) ∅ = Ok (cq.Solid 0)
  /\ ~ (exists e, _post_process blank_gear (cq.Solid 0) ∅ = Raise e).
Proof.
  assert (Hrun : _post_process blank_gear (cq.Solid 0) ∅ = Ok (cq.Solid 0))
    by (vm_compute; reflexivity).
  repeat split; try reflexivity; try exact Hrun.
  intros [e He]. rewrite Hrun in He. discriminate He.
Qed.

(** ** Pool entries that no step declares *)

Lemma declared_names_spec (self : gear) (k pp_name : string) (pp : method) :
  k ∉ declared_names self ->
  pp_name ∈ postproc_sequence ->
  getattr self pp_name = Some pp ->
  k ∉ name <$> signature pp.
Proof.
  intros Hk Hin Hpp Hmem. apply Hk. unfold declared_names.
  apply list_elem_of_bind. exists pp_name. split; [|exact Hin].
  rewrite Hpp. exact Hmem.
Qed.

Lemma run_sequence_insert_unbound (self : gear) (params : gmap string value)
    (k : string) (x : value) (names : list string) :
  (forall pp_name pp, pp_name ∈ names -> getattr self pp_name = Some pp ->
                      k ∉ name <$> signature pp) ->
  forall body,
    run_sequence self names body (<[k := x]> params)
    = run_sequence self names body params.
Proof.
  induction names as [|pp_name rest IH]; intros Hk body; simpl; [reflexivity|].
  destruct (getattr self pp_name) as [pp|] eqn:Hpp; [|reflexivity].
  rewrite bind_args_insert_unbound.
  - destruct (call pp body (bind_args (signature pp) params)) as [body'|e];
      simpl; [|reflexivity].
    apply IH. intros n m Hn. apply Hk. apply list_elem_of_further, Hn.
  - apply default_args_notin. apply (Hk pp_name pp); [apply list_elem_of_here|exact Hpp].
Qed.

(** C10. A pool entry whose name no step of the sequence declares is
    ignored: with or without it every step is bound to the same arguments,
    and the pipeline gives the same result, so the entry raises nothing and
    changes no body. *)
Theorem undeclared_entry_ignored (self : gear) (body : cq.t)
    (params : gmap string value) (k : string) (x : value) :
  k ∉ declared_names self ->
  (forall pp_name pp,
      pp_name ∈ postproc_sequence -> getattr self pp_name = Some pp ->
      bind_args (signature pp) (<[k := x]> params) = bind_args (signature pp) params)
  /\ _post_process self body (<[k := x]> params) = _post_process self body params.
Proof.
  intros Hk. split.
  - intros pp_name pp Hin Hpp. apply bind_args_insert_unbound, default_args_notin.
    exact (declared_names_spec self k pp_name pp Hk Hin Hpp).
  - unfold _post_process. apply run_sequence_insert_unbound.
    intros pp_name pp Hin Hpp. exact (declared_names_spec self k pp_name pp Hk Hin Hpp).
Qed.

Lemma undeclared_entry_ignored_witness :
  _post_process blank_gear (cq.Solid 0)
    (<["module" := VFloat 2]> {[ "bore_d" := VFloat 3 ]})
  = _post_process blank_gear (cq.Solid 0) {[ "bore_d" := VFloat 3 ]}.
Proof.
  apply (undeclared_entry_ignored blank_gear (cq.Solid 0)
           {[ "bore_d" := VFloat 3 ]} "module" (VFloat 2)).
  apply (bool_decide_unpack _). vm_compute. exact I.
Defined.

(** * Further properties of the binder and of the pipeline *)

Lemma foldl_default_is_Some (sig : list param) (k : string) :
  forall acc : gmap string value,
    is_Some (foldl (fun args v =>
                      if String.eqb (name v) "body" then args
                      else <[name v := match default v with
                                       | Some d => d
                                       | None => VNone
                                       end]> args)
                   acc sig !! k)
    <-> is_Some (acc !! k) \/ (k ∈ name <$> sig /\ k <> "body").
Proof.
  induction sig as [|v sig IH]; intros acc; simpl.
  - split; [auto|]. intros [H | [H _]]; [exact H|]. inversion H.
  - rewrite IH, ?fmap_cons, elem_of_cons. clear IH.
    destruct (String.eqb (name v) "body") eqn:Hb.
    + apply String.eqb_eq in Hb. split.
      * intros [H | [H Hk]]; [left; exact H | right; auto].
      * intros [H | [[-> | H] Hk]]; [left; exact H | congruence | right; auto].
    + apply String.eqb_neq in Hb. split.
      * intros [H | [H Hk]]; [|right; auto].
        destruct (decide (k = name v)) as [-> | Hne]; [right; auto|].
        left. rewrite lookup_insert_ne in H by congruence. exact H.
      * intros [H | [[-> | H] Hk]]; [| |right; auto].
        -- left. destruct (decide (name v = k)) as [-> | Hne].
           ++ rewrite lookup_insert_eq. eauto.
           ++ rewrite lookup_insert_ne by exact Hne. exact H.
        -- left. rewrite lookup_insert_eq. eauto.
Qed.

Lemma default_args_is_Some (sig : list param) (k : string) :
  is_Some (default_args sig !! k) <-> k ∈ name <$> sig /\ k <> "body".
Proof.
  unfold default_args. rewrite foldl_default_is_Some, lookup_empty. split.
  - intros [[x Hx] | H]; [discriminate|exact H].
  - auto.
Qed.

(** X1. The bound arguments have exactly the declared names other than
    [body] as keys, whatever the pool holds: every declared parameter is
    bound, and no name of the pool is added. *)
Theorem bind_args_keys (sig : list param) (params : gmap string value) (k : string) :
  is_Some (bind_args sig params !! k) <-> k ∈ name <$> sig /\ k <> "body".
Proof.
  rewrite bind_args_lookup, <- default_args_is_Some.
  destruct (default_args sig !! k) as [d|]; split; intros [x Hx]; eauto; discriminate.
Qed.

(** X2. A declared parameter other than [body] is bound to the pool's
    value when the pool has its name, an explicit [None] included, and
    otherwise to its default, or to [None] when it has no default. *)
Theorem bind_args_override_or_default (sig : list param)
    (params : gmap string value) (v : param) :
  NoDup (name <$> sig) ->
  v ∈ sig ->
  name v <> "body" ->
  bind_args sig params !! name v
  = Some (match params !! name v with
          | Some x => x
          | None => match default v with Some d => d | None => VNone end
          end).
Proof.
  intros Hnd Hin Hbody.
  rewrite bind_args_lookup, (default_args_lookup sig v Hnd Hin Hbody). reflexivity.
Qed.

Lemma bind_args_override_or_default_witness :
  bind_args [required "body"; {| name := "bore_d"; default := Some (VFloat 3) |};
             required "hub_d"]
            {[ "hub_d" := VNone; "module" := VInt 2 ]}
    !! "bore_d"
  = Some (VFloat 3).
Proof.
  refine (eq_trans
            (bind_args_override_or_default
               [required "body"; {| name := "bore_d"; default := Some (VFloat 3) |};
                required "hub_d"]
               {[ "hub_d" := VNone; "module" := VInt 2 ]}
               {| name := "bore_d"; default := Some (VFloat 3) |} _ _ _) _).
  - apply (bool_decide_unpack _). vm_compute. exact I.
  - apply list_elem_of_further, list_elem_of_here.
  - discriminate.
  - vm_compute. reflexivity.
Defined.

Lemma rbind_Ok_r {A} (c : result A) : rbind c Ok = c.
Proof. destruct c; reflexivity. Qed.

Lemma kwarg_bind_args (sig : list param) (params : gmap string value) (k : string) :
  default_args sig !! k = Some VNone ->
  kwarg (bind_args sig params) k = Ok (pool_get params k).
Proof.
  intros Hk. unfold kwarg, pool_get. rewrite bind_args_lookup, Hk. reflexivity.
Qed.

(** The loop of [_post_process] written out. *)
Lemma _post_process_unfold (self : gear) (body : cq.t) (params : gmap string value) :
  _post_process self body params
  = (let get := pool_get params in
     let* body := bore self body (get "bore_d") in
     let* body := recess self body (get "recess") (get "recess_d") (get "hub_d") in
     let* body := hub self body (get "hub_length") (get "hub_d") (get "bore_d") in
     let* body := spokes self body (get "n_spokes") (get "spokes_id") (get "spokes_od")
                         (get "spoke_width") (get "spoke_fillet") in
     chamfer self body (get "chamfer") (get "chamfer_top") (get "chamfer_bottom")).
Proof.
  unfold _post_process, postproc_sequence.
  cbn [run_sequence getattr String.eqb Ascii.eqb Bool.eqb call signature].
  repeat (rewrite kwarg_bind_args by (vm_compute; reflexivity);
          cbn [rbind]).
  cbv zeta.
  destruct (bore self body (pool_get params "bore_d")) as [b1|e]; [|reflexivity].
  cbn [rbind].
  repeat (rewrite kwarg_bind_args by (vm_compute; reflexivity);
          cbn [rbind]).
  destruct (recess self b1 (pool_get params "recess") (pool_get params "recess_d")
              (pool_get params "hub_d")) as [b2|e]; [|reflexivity].
  cbn [rbind].
  repeat (rewrite kwarg_bind_args by (vm_compute; reflexivity);
          cbn [rbind]).
  destruct (hub self b2 (pool_get params "hub_length") (pool_get params "hub_d")
              (pool_get params "bore_d")) as [b3|e]; [|reflexivity].
  cbn [rbind].
  repeat (rewrite kwarg_bind_args by (vm_compute; reflexivity);
          cbn [rbind]).
  destruct (spokes self b3 (pool_get params "n_spokes") (pool_get params "spokes_id")
              (pool_get params "spokes_od") (pool_get params "spoke_width")
              (pool_get params "spoke_fillet")) as [b4|e]; [|reflexivity].
  cbn [rbind].
  repeat (rewrite kwarg_bind_args by (vm_compute; reflexivity);
          cbn [rbind]).
  apply rbind_Ok_r.
Qed.

(** X3. [_post_process] is the five steps in the order bore, recess, hub,
    spokes, chamfer, each run on the body the one before returned and each
    given, for every one of its parameters, the pool's value under that
    name, or [None] when the pool has none; [hub_d] reaches both [recess]
    and [hub], and [bore_d] both [bore] and [hub].  The first step that
    raises ends the run with its exception. *)
Theorem _post_process_steps (self : gear) (body : cq.t) (params : gmap string value) :
  _post_process self body params
  = (let get := pool_get params in
     let* body := bore self body (get "bore_d") in
     let* body := recess self body (get "recess") (get "recess_d") (get "hub_d") in
     let* body := hub self body (get "hub_length") (get "hub_d") (get "bore_d") in
     let* body := spokes self body (get "n_spokes") (get "spokes_id") (get "spokes_od")
                         (get "spoke_width") (get "spoke_fillet") in
     chamfer self body (get "chamfer") (get "chamfer_top") (get "chamfer_bottom")).
Proof. apply _post_process_unfold. Qed.

(** Membership in a list of names given in full. *)
Ltac in_list := apply (bool_decide_unpack _); vm_compute; exact I.

(** X4. When the pool leaves [bore_d], [recess], [hub_length], [n_spokes],
    [chamfer], [chamfer_top] and [chamfer_bottom] out, or sets them to
    [None], the pipeline returns the body as it got it, whatever else the
    pool holds: diameters and widths alone cut nothing. *)
Theorem _post_process_without_triggers (self : gear) (body : cq.t)
    (params : gmap string value) :
  (forall k, k ∈ ["bore_d"; "recess"; "hub_length"; "n_spokes";
                  "chamfer"; "chamfer_top"; "chamfer_bottom"] ->
             pool_get params k = VNone) ->
  _post_process self body params = Ok body.
Proof.
  intros Hnone. rewrite _post_process_unfold. cbv zeta.
  rewrite (Hnone "bore_d"), (Hnone "recess"), (Hnone "hub_length"),
    (Hnone "n_spokes"), (Hnone "chamfer"), (Hnone "chamfer_top"),
    (Hnone "chamfer_bottom") by in_list.
  reflexivity.
Qed.

Lemma _post_process_without_triggers_witness :
  _post_process blank_gear (cq.Solid 0)
    {[ "hub_d" := VFloat 8; "recess_d" := VFloat 15; "spokes_od" := VFloat 18;
       "spoke_width" := VFloat 2; "bore_d" := VNone ]}
  = Ok (cq.Solid 0).
Proof.
  apply (_post_process_without_triggers blank_gear (cq.Solid 0)).
  intros k Hk.
  repeat (apply elem_of_cons in Hk as [-> | Hk]; [vm_compute; reflexivity|]).
  inversion Hk.
Defined.

(** X5. When [bore_d] is the only trigger the pool sets, and it is a
    number, whatever the pipeline returns is the through-all cut of the
    circle of radius [bore_d / 2.0]: [hub] receives [bore_d] as well but
    does nothing without [hub_length], and no other step cuts. *)
Theorem _post_process_bore_only_returns (self : gear) (body : cq.t)
    (params : gmap string value) (d : Q) (result : cq.t) :
  number (pool_get params "bore_d") = Ok d ->
  (forall k, k ∈ ["recess"; "hub_length"; "n_spokes";
                  "chamfer"; "chamfer_top"; "chamfer_bottom"] ->
             pool_get params k = VNone) ->
  _post_process self body params = Ok result ->
  result = bore_cut self body d.
Proof.
  intros Hd Hnone. rewrite _post_process_unfold. cbv zeta.
  rewrite (Hnone "recess"), (Hnone "hub_length"), (Hnone "n_spokes"),
    (Hnone "chamfer"), (Hnone "chamfer_top"), (Hnone "chamfer_bottom") by in_list.
  unfold bore. rewrite (number_not_None _ _ Hd), (div_by_two _ _ Hd).
  intros Hres. injection Hres as <-. reflexivity.
Qed.

Lemma _post_process_bore_only_returns_witness :
  exists result,
    _post_process blank_gear (cq.Solid 0)
      {[ "bore_d" := VFloat 3; "hub_d" := VFloat 8 ]} = Ok result
    /\ result = bore_cut blank_gear (cq.Solid 0) 3.
Proof.
  eexists. split; [vm_compute; reflexivity|].
  apply (_post_process_bore_only_returns blank_gear (cq.Solid 0)
           {[ "bore_d" := VFloat 3; "hub_d" := VFloat 8 ]} 3).
  - vm_compute. reflexivity.
  - intros k Hk.
    repeat (apply elem_of_cons in Hk as [-> | Hk]; [vm_compute; reflexivity|]).
    inversion Hk.
  - vm_compute. reflexivity.
Defined.

(** X6. A pool that sets [hub_length] and leaves [hub_d] out, or [None],
    never gives a body: an earlier step raises, or [hub] stops at its
    assertion, and the steps after it do not run. *)
Theorem _post_process_hub_without_diameter (self : gear) (body : cq.t)
    (params : gmap string value) :
  pool_get params "hub_length" <> VNone ->
  pool_get params "hub_d" = VNone ->
  exists e, _post_process self body params = Raise e.
Proof.
  intros Hl Hd. rewrite _post_process_unfold. cbv zeta.
  destruct (bore self body (pool_get params "bore_d")) as [b1|e]; [|eauto].
  cbn [rbind].
  destruct (recess self b1 (pool_get params "recess") (pool_get params "recess_d")
              (pool_get params "hub_d")) as [b2|e]; [|eauto].
  cbn [rbind]. unfold hub.
  apply is_None_false in Hl. rewrite Hl, Hd. simpl. eauto.
Qed.

Lemma _post_process_hub_without_diameter_witness :
  exists e, _post_process blank_gear (cq.Solid 0)
              {[ "hub_length" := VFloat 5; "bore_d" := VFloat 3 ]} = Raise e.
Proof.
  apply (_post_process_hub_without_diameter blank_gear (cq.Solid 0)
           {[ "hub_length" := VFloat 5; "bore_d" := VFloat 3 ]}).
  - vm_compute. discriminate.
  - vm_compute. reflexivity.
Defined.

(** * Further properties of the steps *)

(** ** Recess *)

(** X7. Whatever [recess] returns for a depth other than [None] is a blind
    cut of depth [-recess] on the [+axis] face, and then the depth and the
    recess diameter were numbers: a cut of the circle of radius
    [recess_d / 2.0] alone when [hub_d] is [None], and of that circle
    together with the circle of radius [hub_d / 2.0] when [hub_d] is a
    number.  No other value of [hub_d] lets the step return. *)
Theorem recess_returns_blind_cut (self : gear) (body : cq.t)
    (recess_v recess_d hub_d : value) (result : cq.t) :
  recess_v <> VNone ->
  recess self body recess_v recess_d hub_d = Ok result ->
  exists r d,
    number recess_v = Ok r /\ number recess_d = Ok d
    /\ ((hub_d = VNone
         /\ result = (top_face self body |> cq.circle (d / 2)
                      |> cq.cutBlind (- r) |> cq.val))
        \/ (exists h,
              number hub_d = Ok h
              /\ result = (top_face self body |> cq.circle (h / 2)
                           |> cq.circle (d / 2) |> cq.cutBlind (- r) |> cq.val))).
Proof.
  intros Hr Hres. apply is_None_false in Hr. unfold recess in Hres.
  rewrite Hr in Hres. unfold div_by in Hres.
  destruct (number recess_v) as [r|e] eqn:Hnr.
  2:{ destruct (is_None hub_d); cbn [negb] in Hres.
      - cbn [rbind] in Hres. destruct (number recess_d); discriminate.
      - destruct (number hub_d); cbn [rbind truediv] in Hres; [|discriminate].
        cbn in Hres. destruct (number recess_d); discriminate. }
  destruct (number recess_d) as [d|e] eqn:Hnd.
  2:{ destruct (is_None hub_d); cbn [negb] in Hres.
      - discriminate.
      - destruct (number hub_d); cbn in Hres; discriminate. }
  exists r, d. split; [reflexivity|]. split; [reflexivity|].
  destruct hub_d as [|z|q|items]; cbn in Hres.
  - left. split; [reflexivity|]. injection Hres as <-. reflexivity.
  - right. exists (inject_Z z). split; [reflexivity|].
    injection Hres as <-. reflexivity.
  - right. exists q. split; [reflexivity|]. injection Hres as <-. reflexivity.
  - discriminate.
Qed.

Lemma recess_returns_blind_cut_witness :
  exists result,
    recess blank_gear (cq.Solid 0) (VFloat 2) (VInt 15) VNone = Ok result
    /\ exists r d,
         number (VFloat 2) = Ok r /\ number (VInt 15) = Ok d
         /\ ((VNone = VNone
              /\ result = (top_face blank_gear (cq.Solid 0) |> cq.circle (d / 2)
                           |> cq.cutBlind (- r) |> cq.val))
             \/ (exists h,
                   number VNone = Ok h
                   /\ result = (top_face blank_gear (cq.Solid 0)
                                |> cq.circle (h / 2) |> cq.circle (d / 2)
                                |> cq.cutBlind (- r) |> cq.val))).
Proof.
  eexists. split; [reflexivity|].
  apply (recess_returns_blind_cut blank_gear (cq.Solid 0) (VFloat 2) (VInt 15) VNone).
  - discriminate.
  - reflexivity.
Defined.

(** X8. [recess] has no assertion on its diameter, but with a depth given
    and [recess_d] left at [None] it never returns a body, whatever
    [hub_d] is: [recess_d / 2.0] raises [TypeError] unless an earlier line
    has raised. *)
Theorem recess_without_diameter_never_returns (self : gear) (body : cq.t)
    (recess_v hub_d : value) :
  recess_v <> VNone ->
  exists e, recess self body recess_v VNone hub_d = Raise e.
Proof.
  intros Hr. apply is_None_false in Hr. unfold recess. rewrite Hr.
  destruct hub_d; simpl; eauto.
Qed.

Lemma recess_without_diameter_never_returns_witness :
  exists e, recess blank_gear (cq.Solid 0) (VFloat 2) VNone (VFloat 8) = Raise e.
Proof.
  apply (recess_without_diameter_never_returns blank_gear (cq.Solid 0)
           (VFloat 2) (VFloat 8)).
  discriminate.
Defined.

(** ** Hub *)

(** X9. Whatever [hub] returns for a hub length other than [None] is the
    extrusion by [hub_length] from the [+axis] face, and then the hub
    diameter was a number: the extrusion of the circle of radius
    [hub_d / 2.0] alone when [bore_d] is [None], and of the ring between it
    and the circle of radius [bore_d / 2.0] when [bore_d] is a number.  No
    other value of [bore_d] lets the step return. *)
Theorem hub_returns_extrusion (self : gear) (body : cq.t)
    (hub_length hub_d bore_d : value) (result : cq.t) :
  hub_length <> VNone ->
  hub self body hub_length hub_d bore_d = Ok result ->
  exists d,
    number hub_d = Ok d
    /\ ((bore_d = VNone
         /\ result = (top_face self body |> cq.circle (d / 2)
                      |> cq.extrude hub_length |> cq.val))
        \/ (exists b,
              number bore_d = Ok b
              /\ result = (top_face self body |> cq.circle (b / 2)
                           |> cq.circle (d / 2) |> cq.extrude hub_length
                           |> cq.val))).
Proof.
  intros Hl Hres. apply is_None_false in Hl. unfold hub in Hres.
  rewrite Hl in Hres. unfold div_by in Hres.
  destruct (is_None hub_d) eqn:Hnone; [discriminate|]. cbn in Hres.
  destruct (number hub_d) as [d|e] eqn:Hnd.
  2:{ destruct (is_None bore_d); cbn [negb] in Hres.
      - discriminate.
      - destruct (number bore_d); cbn in Hres; discriminate. }
  exists d. split; [reflexivity|].
  destruct bore_d as [|z|q|items]; cbn in Hres.
  - left. split; [reflexivity|]. injection Hres as <-. reflexivity.
  - right. exists (inject_Z z). split; [reflexivity|].
    injection Hres as <-. reflexivity.
  - right. exists q. split; [reflexivity|]. injection Hres as <-. reflexivity.
  - discriminate.
Qed.

Lemma hub_returns_extrusion_witness :
  exists result,
    hub blank_gear (cq.Solid 0) (VFloat 5) (VFloat 8) VNone = Ok result
    /\ exists d,
         number (VFloat 8) = Ok d
         /\ ((VNone = VNone
              /\ result = (top_face blank_gear (cq.Solid 0) |> cq.circle (d / 2)
                           |> cq.extrude (VFloat 5) |> cq.val))
             \/ (exists b,
                   number VNone = Ok b
                   /\ result = (top_face blank_gear (cq.Solid 0)
                                |> cq.circle (b / 2) |> cq.circle (d / 2)
                                |> cq.extrude (VFloat 5) |> cq.val))).
Proof.
  eexists. split; [reflexivity|].
  apply (hub_returns_extrusion blank_gear (cq.Solid 0) (VFloat 5) (VFloat 8) VNone).
  - discriminate.
  - reflexivity.
Defined.

(** ** Spokes *)

(** X10. With a spoke count above 1, [spokes] asserts its two required
    parameters in turn: a spoke width of [None] raises [AssertionError]
    with "Spoke width is not set", and with a width given an outer diameter
    of [None] raises it with "Outer spokes diameter is not set". *)
Theorem spokes_required_parameters (self : gear) (body : cq.t)
    (n_spokes spokes_id spoke_fillet : value) (n : Q) :
  number n_spokes = Ok n ->
  (1 < n)%Q ->
  (forall spokes_od,
      spokes self body n_spokes spokes_id spokes_od VNone spoke_fillet
      = Raise (AssertionError "Spoke width is not set"))
  /\ (forall spoke_width,
        spoke_width <> VNone ->
        spokes self body n_spokes spokes_id VNone spoke_width spoke_fillet
        = Raise (AssertionError "Outer spokes diameter is not set")).
Proof.
  intros Hn Hlt. apply Qgtb_true in Hlt. split.
  - intros spokes_od. unfold spokes.
    rewrite (number_not_None _ _ Hn), Hn. simpl. rewrite Hlt. reflexivity.
  - intros spoke_width Hw. apply is_None_false in Hw. unfold spokes.
    rewrite (number_not_None _ _ Hn), Hn. simpl. rewrite Hlt. simpl.
    rewrite Hw. reflexivity.
Qed.

Lemma spokes_required_parameters_witness :
  spokes blank_gear (cq.Solid 0) (VInt 5) (VFloat 6) (VFloat 18) VNone VNone
  = Raise (AssertionError "Spoke width is not set").
Proof.
  apply (spokes_required_parameters blank_gear (cq.Solid 0) (VInt 5) (VFloat 6) VNone 5);
    reflexivity.
Defined.

Lemma spokes_radii_Ok_width (spokes_id spokes_od spoke_width : value) (p : Q * Q) :
  spokes_radii spokes_id spokes_od spoke_width = Ok p ->
  exists w, number spoke_width = Ok w.
Proof.
  unfold spokes_radii, div_by. destruct (number spoke_width) as [w|e]; [eauto|].
  destruct (is_None spokes_id); discriminate.
Qed.

(** Line 160 is reached, or an earlier line raises. *)
Lemma spokes_None_inner_raises (self : gear) (body : cq.t)
    (n_spokes spokes_od spoke_width spoke_fillet : value) :
  n_spokes <> VNone ->
  exists e,
    spokes self body n_spokes VNone spokes_od spoke_width spoke_fillet = Raise e.
Proof.
  intros Hn. apply is_None_false in Hn. unfold spokes. rewrite Hn.
  destruct (number n_spokes) as [n|e]; [|simpl; eauto]. cbn [rbind].
  destruct (py_assert (Qgtb n 1) _) as [[]|e]; [|simpl; eauto]. cbn [rbind].
  destruct (py_assert (negb (is_None spoke_width)) _) as [[]|e]; [|simpl; eauto].
  cbn [rbind].
  destruct (py_assert (negb (is_None spokes_od)) _) as [[]|e]; [|simpl; eauto].
  cbn [rbind].
  destruct (spokes_radii VNone spokes_od spoke_width) as [[r1 r2]|e] eqn:Hr;
    [|simpl; eauto].
  cbn [rbind].
  destruct (spokes_radii_Ok_width _ _ _ _ Hr) as [w Hw].
  rewrite (chord_angle_None _ _ Hw). simpl. eauto.
Qed.

(** X11. With the inner diameter [None], [spokes] returns a body for no
    input at all once a spoke count is given: every path ends in an
    exception, whatever the count, the width, the outer diameter and the
    fillet are. *)
Theorem spokes_without_inner_diameter_never_returns (self : gear) (body : cq.t)
    (n_spokes spokes_od spoke_width spoke_fillet : value) :
  n_spokes <> VNone ->
  exists e,
    spokes self body n_spokes VNone spokes_od spoke_width spoke_fillet = Raise e.
Proof. apply spokes_None_inner_raises. Qed.

Lemma spokes_without_inner_diameter_never_returns_witness :
  exists e,
    spokes blank_gear (cq.Solid 0) (VInt 4) VNone (VFloat 18) (VFloat 2) (VFloat 1)
    = Raise e.
Proof.
  apply (spokes_without_inner_diameter_never_returns blank_gear (cq.Solid 0)
           (VInt 4) (VFloat 18) (VFloat 2) (VFloat 1)).
  discriminate.
Defined.

(** X12. A spoke count given as a [float] never yields a body: a count not
    above 1 fails the assertion, and a count above 1 that gets through the
    wedge construction raises [TypeError] at [range(n_spokes)] before any
    cut. *)
Theorem spokes_float_count_never_returns (self : gear) (body : cq.t) (q : Q)
    (spokes_id spokes_od spoke_width spoke_fillet : value) :
  exists e,
    spokes self body (VFloat q) spokes_id spokes_od spoke_width spoke_fillet = Raise e.
Proof.
  unfold spokes. cbn [is_None number rbind].
  destruct (py_assert (Qgtb q 1) _) as [[]|e]; [|simpl; eauto]. cbn [rbind].
  destruct (py_assert (negb (is_None spoke_width)) _) as [[]|e]; [|simpl; eauto].
  cbn [rbind].
  destruct (py_assert (negb (is_None spokes_od)) _) as [[]|e]; [|simpl; eauto].
  cbn [rbind].
  destruct (spokes_radii spokes_id spokes_od spoke_width) as [[r1 r2]|e];
    [|simpl; eauto].
  cbn [rbind].
  destruct (chord_angle spoke_width spokes_id) as [a1|e]; [|simpl; eauto].
  cbn [rbind].
  destruct (chord_angle spoke_width spokes_od) as [a2|e]; [|simpl; eauto].
  cbn [rbind range]. eauto.
Qed.

(** X13. A diameter of zero is not rejected by an assertion: with a count
    above 1 and numbers for the width and both diameters, an inner diameter
    equal to zero raises [ZeroDivisionError], and so does an outer diameter
    equal to zero when the inner one is not zero. *)
Theorem spokes_zero_diameter (self : gear) (body : cq.t)
    (n_spokes spokes_id spokes_od spoke_width spoke_fillet : value) (n i d w : Q) :
  number n_spokes = Ok n -> (1 < n)%Q ->
  number spokes_id = Ok i ->
  number spokes_od = Ok d ->
  number spoke_width = Ok w ->
  (i == 0)%Q \/ (d == 0)%Q ->
  spokes self body n_spokes spokes_id spokes_od spoke_width spoke_fillet
  = Raise ZeroDivisionError.
Proof.
  intros Hn Hlt Hi Hd Hw Hz. apply Qgtb_true in Hlt. unfold spokes.
  rewrite (number_not_None _ _ Hn), Hn. simpl. rewrite Hlt. simpl.
  rewrite (number_not_None _ _ Hw), (number_not_None _ _ Hd). simpl.
  unfold spokes_radii.
  rewrite (number_not_None _ _ Hi).
  rewrite (div_by_two _ _ Hw), (div_by_two _ _ Hi), (div_by_two _ _ Hd). simpl.
  assert (Hhalf : forall x : Q, (x == 0)%Q -> Qeq_bool (x / 2) 0 = true).
  { intros x Hx. apply Qeq_bool_iff. rewrite Hx. reflexivity. }
  unfold chord_angle at 1.
  rewrite (div_by_two _ _ Hw), (div_by_two _ _ Hi). simpl. unfold truediv at 1.
  destruct (Qeq_bool (i / 2) 0) eqn:Hiz; [reflexivity|]. simpl.
  destruct Hz as [Hz | Hz].
  - rewrite (Hhalf i Hz) in Hiz. discriminate.
  - unfold chord_angle.
    rewrite (div_by_two _ _ Hw), (div_by_two _ _ Hd). simpl. unfold truediv.
    rewrite (Hhalf d Hz). reflexivity.
Qed.

Lemma spokes_zero_diameter_witness :
  spokes blank_gear (cq.Solid 0) (VInt 5) (VInt 0) (VFloat 18) (VFloat 2) VNone
  = Raise ZeroDivisionError.
Proof.
  apply (spokes_zero_diameter blank_gear (cq.Solid 0)
           (VInt 5) (VInt 0) (VFloat 18) (VFloat 2) VNone 5 0 18 2);
    try reflexivity.
  left. reflexivity.
Defined.

Lemma cut_tools_foldl (tau : np.t) (cutout : cq.t) (idx : list Z) :
  forall body,
    cut_tools (foldl (cut_rotated tau cutout) body idx)
    = (cut_tools body ++ (rotated_cutout tau cutout <$> idx))%list.
Proof.
  induction idx as [|i idx IH]; intros body; simpl.
  - symmetry. apply app_nil_r.
  - rewrite IH. simpl. rewrite <- app_assoc. reflexivity.
Qed.

(** X14. Whatever [spokes] returns for a count other than [None] is a body
    on which exactly [n] cuts were made, where the count is the [int] [n]
    and [n > 1]: all cuts with one and the same cutout, the one of turn [i]
    rotated by [np.degrees(tau * i)] for [i = 0, ..., n - 1] in this order,
    where [tau = np.pi * 2.0 / n]. *)
Theorem spokes_returns_n_rotated_cuts (self : gear) (body : cq.t)
    (n_spokes spokes_id spokes_od spoke_width spoke_fillet : value)
    (result : cq.t) :
  n_spokes <> VNone ->
  spokes self body n_spokes spokes_id spokes_od spoke_width spoke_fillet = Ok result ->
  exists n cutout,
    n_spokes = VInt n /\ (1 < n)%Z
    /\ cut_tools result
       = rotated_cutout (np.div (np.mul np.pi (np.const 2)) (np.const (inject_Z n)))
                        cutout
         <$> seqZ 0 n
    /\ length (cut_tools result) = Z.to_nat n.
Proof.
  intros Hn Hres. apply is_None_false in Hn. unfold spokes in Hres.
  rewrite Hn in Hres.
  destruct (number n_spokes) as [q|e] eqn:Hq; [|discriminate]. cbn [rbind] in Hres.
  destruct (Qgtb q 1) eqn:Hgt; [|discriminate]. cbn [py_assert rbind] in Hres.
  destruct (py_assert (negb (is_None spoke_width)) _) as [[]|e]; [|discriminate].
  cbn [rbind] in Hres.
  destruct (py_assert (negb (is_None spokes_od)) _) as [[]|e]; [|discriminate].
  cbn [rbind] in Hres.
  destruct (spokes_radii spokes_id spokes_od spoke_width) as [[r1 r2]|e];
    [|discriminate].
  cbn [rbind] in Hres.
  destruct (chord_angle spoke_width spokes_id) as [a1|e]; [|discriminate].
  cbn [rbind] in Hres.
  destruct (chord_angle spoke_width spokes_od) as [a2|e]; [|discriminate].
  cbn [rbind] in Hres.
  destruct n_spokes as [|n|f|items]; try discriminate.
  cbn [range rbind] in Hres. cbn [number] in Hq. injection Hq as <-.
  injection Hres as <-.
  eexists n, _. split; [reflexivity|]. split.
  { apply Qgtb_true in Hgt. change 1%Q with (inject_Z 1) in Hgt.
    rewrite <- Zlt_Qlt in Hgt. exact Hgt. }
  cbn [cut_tools]. rewrite cut_tools_foldl. cbn [cut_tools app].
  split; [reflexivity|].
  rewrite length_fmap, length_seqZ. reflexivity.
Qed.

Lemma spokes_returns_n_rotated_cuts_witness :
  exists result,
    spokes blank_gear (cq.Solid 0) (VInt 5) (VFloat 6) (VFloat 18) (VFloat 2) VNone
    = Ok result
    /\ exists n cutout,
         VInt 5 = VInt n /\ (1 < n)%Z
         /\ cut_tools result
            = rotated_cutout
                (np.div (np.mul np.pi (np.const 2)) (np.const (inject_Z n))) cutout
              <$> seqZ 0 n
         /\ length (cut_tools result) = Z.to_nat n.
Proof.
  eexists. split; [reflexivity|].
  apply (spokes_returns_n_rotated_cuts blank_gear (cq.Solid 0)
           (VInt 5) (VFloat 6) (VFloat 18) (VFloat 2) VNone).
  - discriminate.
  - reflexivity.
Defined.

(** What a computed pair of radii says about the inputs. *)
Lemma spokes_radii_inv (spokes_id spokes_od spoke_width : value) (r1 r2 : Q) :
  spokes_radii spokes_id spokes_od spoke_width = Ok (r1, r2) ->
  exists w d,
    number spoke_width = Ok w /\ number spokes_od = Ok d
    /\ r2 = (d / 2 - (1 # 10000))%Q
    /\ ((spokes_id = VNone /\ r1 = (w / 2 + (1 # 10000))%Q)
        \/ (exists i, number spokes_id = Ok i
                      /\ r1 = (py_max (w / 2) (i / 2) + (1 # 10000))%Q)).
Proof.
  unfold spokes_radii, div_by. intros Hr.
  destruct (number spoke_width) as [w|e]; [|destruct (is_None spokes_id); discriminate].
  destruct (number spokes_od) as [d|e].
  - exists w, d. do 3 (split; [reflexivity || idtac|]).
    + destruct spokes_id; simpl in Hr; try discriminate; congruence.
    + destruct spokes_id; simpl in Hr; try discriminate;
        injection Hr as <- _; eauto.
  - destruct spokes_id; simpl in Hr; discriminate.
Qed.

(** X15. Whenever the radii of lines 149-157 are computed, the inner one is
    at least [spoke_width / 2.0 + 0.0001], and at least
    [spokes_id / 2.0 + 0.0001] when an inner diameter is given, so an inner
    diameter not above the spoke width has no effect; the outer one is
    [spokes_od / 2.0 - 0.0001]. *)
Theorem spokes_radii_bounds (spokes_id spokes_od spoke_width : value) (r1 r2 w : Q) :
  spokes_radii spokes_id spokes_od spoke_width = Ok (r1, r2) ->
  number spoke_width = Ok w ->
  (w / 2 + (1 # 10000) <= r1)%Q
  /\ (forall i, number spokes_id = Ok i ->
                (i / 2 + (1 # 10000) <= r1)%Q
                /\ ((i <= w)%Q -> r1 = (w / 2 + (1 # 10000))%Q))
  /\ (exists d, number spokes_od = Ok d /\ r2 = (d / 2 - (1 # 10000))%Q).
Proof.
  intros Hr Hw.
  destruct (spokes_radii_inv _ _ _ _ _ Hr) as (w' & d & Hw' & Hd & -> & Hcase).
  assert (w' = w) as -> by congruence.
  destruct Hcase as [[-> ->] | (i & Hi & ->)].
  - split; [apply Qle_refl|]. split; [|eauto]. intros i Hi. discriminate Hi.
  - split; [|split; [|eauto]].
    + apply Qplus_le_l. unfold py_max. destruct (Qgtb (i / 2) (w / 2)) eqn:Hg.
      * apply Qgtb_true in Hg. apply Qlt_le_weak, Hg.
      * apply Qle_refl.
    + intros i' Hi'. assert (i' = i) as -> by congruence. split.
      * apply Qplus_le_l. unfold py_max. destruct (Qgtb (i / 2) (w / 2)) eqn:Hg.
        -- apply Qle_refl.
        -- apply Qgtb_false in Hg. exact Hg.
      * intros Hle. unfold py_max.
        destruct (Qgtb (i / 2) (w / 2)) eqn:Hg; [|reflexivity].
        apply Qgtb_true in Hg. exfalso.
        unfold Qdiv in Hg. change (/ 2)%Q with (1 # 2)%Q in Hg. lra.
Qed.

Lemma spokes_radii_bounds_witness :
  (2 / 2 + (1 # 10000) <= 6 / 2 + (1 # 10000))%Q.
Proof.
  refine (proj1 (spokes_radii_bounds (VFloat 6) (VFloat 18) (VFloat 2)
                  (6 / 2 + (1 # 10000)) (18 / 2 - (1 # 10000)) 2 _ _));
    reflexivity.
Defined.

(** X16. The radii come out as [r1 < r2] only if the spoke width and a
    given inner diameter are each more than [0.0004] below the outer
    diameter: this holds for the floats of lines 149-157 under any rounding
    that keeps the order of its arguments, leaves the three halves as they
    are and gives a float not below [0.0001] for the literal [0.0001]. *)
Theorem spokes_radii_fl_ordered_only_if (fl : Q -> Q)
    (spokes_id : option Q) (spokes_od spoke_width : Q) :
  (forall x y, (x <= y)%Q -> (fl x <= fl y)%Q) ->
  (1 # 10000 <= fl (1 # 10000))%Q ->
  (fl (spoke_width / 2) == spoke_width / 2)%Q ->
  (fl (spokes_od / 2) == spokes_od / 2)%Q ->
  (forall i, spokes_id = Some i -> (fl (i / 2) == i / 2)%Q) ->
  (fst (spokes_radii_fl fl spokes_id spokes_od spoke_width)
   < snd (spokes_radii_fl fl spokes_id spokes_od spoke_width))%Q ->
  (spoke_width + (4 # 10000) < spokes_od)%Q
  /\ forall i, spokes_id = Some i -> (i + (4 # 10000) < spokes_od)%Q.
Proof.
  intros Hmono He Hw Hd Hi. unfold spokes_radii_fl. cbn [fst snd]. intros Hlt.
  set (m := match spokes_id with
            | Some i => py_max (fl (spoke_width / 2)%Q) (fl (i / 2)%Q)
            | None => fl (spoke_width / 2)%Q
            end) in *.
  assert (Hgap : (m + fl (1 # 10000) < fl (spokes_od / 2) - fl (1 # 10000))%Q).
  { apply Qnot_le_lt. intros Hle. apply Hmono in Hle.
    exact (Qlt_not_le _ _ Hlt Hle). }
  assert (Hmw : (fl (spoke_width / 2) <= m)%Q).
  { subst m. destruct spokes_id; [apply py_max_ge_l | apply Qle_refl]. }
  split.
  - revert Hgap Hmw Hw Hd. unfold Qdiv. change (/ 2)%Q with (1 # 2)%Q.
    intros Hgap Hmw Hw Hd. lra.
  - intros i ->. specialize (Hi i eq_refl).
    assert (Hmi : (fl (i / 2) <= m)%Q) by (subst m; apply py_max_ge_r).
    revert Hgap Hmi Hi Hd. unfold Qdiv. change (/ 2)%Q with (1 # 2)%Q.
    intros Hgap Hmi Hi Hd. lra.
Qed.

Lemma spokes_radii_fl_ordered_only_if_witness :
  (2 + (4 # 10000) < 18)%Q
  /\ forall i, Some 6%Q = Some i -> (i + (4 # 10000) < 18)%Q.
Proof.
  apply (spokes_radii_fl_ordered_only_if (fun x => x) (Some 6%Q) 18 2).
  - intros x y Hxy. exact Hxy.
  - apply Qle_refl.
  - reflexivity.
  - reflexivity.
  - intros i _. reflexivity.
  - reflexivity.
Defined.

(** ** Chamfer *)

Lemma extents_wrong_length (items : list value) :
  length items <> 2%nat -> extents (VTuple items) = Raise ValueError.
Proof.
  destruct items as [|a [|b [|c items]]]; simpl; intros Hlen;
    try reflexivity. congruence.
Qed.

(** X17. A list or tuple whose length is not 2 raises [ValueError] when it
    is unpacked and nothing is cut: as [chamfer_top], whatever the other
    two parameters are; as an unqualified [chamfer] with [chamfer_top] at
    [None]; and as [chamfer_bottom] alone. *)
Theorem chamfer_wrong_length (self : gear) (body : cq.t) (items : list value) :
  length items <> 2%nat ->
  (forall c chamfer_bottom,
      chamfer self body c (VTuple items) chamfer_bottom = Raise ValueError)
  /\ (forall chamfer_bottom,
        chamfer self body (VTuple items) VNone chamfer_bottom = Raise ValueError)
  /\ chamfer self body VNone VNone (VTuple items) = Raise ValueError.
Proof.
  intros Hlen. pose proof (extents_wrong_length items Hlen) as Hext.
  split; [|split].
  - intros c chamfer_bottom. unfold chamfer.
    rewrite (chamfer_seed_given c (VTuple items)) by discriminate.
    cbn [is_None negb]. rewrite andb_false_r. cbn [andb].
    unfold chamfer_top_cutter. rewrite Hext. reflexivity.
  - intros chamfer_bottom. unfold chamfer. cbn [is_None andb chamfer_seed negb].
    unfold chamfer_top_cutter. rewrite Hext. reflexivity.
  - unfold chamfer. cbn [is_None andb chamfer_seed negb rbind].
    unfold chamfer_bottom_cutter. rewrite Hext. reflexivity.
Qed.

Lemma chamfer_wrong_length_witness :
  chamfer blank_gear (cq.Solid 0) VNone VNone (VTuple [VFloat 1; VFloat 1; VFloat 1])
  = Raise ValueError.
Proof.
  apply (chamfer_wrong_length blank_gear (cq.Solid 0) [VFloat 1; VFloat 1; VFloat 1]).
  discriminate.
Defined.





(** ** Spokes in the pipeline *)

(** X20. A pool that sets [n_spokes] and leaves [spokes_id] out, or [None],
    never gives a body: the pipeline ends in an exception, raised by
    [spokes] at the latest, and [chamfer] does not run. *)
Theorem _post_process_spokes_without_inner_diameter (self : gear) (body : cq.t)
    (params : gmap string value) :
  pool_get params "n_spokes" <> VNone ->
  pool_get params "spokes_id" = VNone ->
  exists e, _post_process self body params = Raise e.
Proof.
  intros Hn Hid. rewrite _post_process_unfold. cbv zeta.
  destruct (bore self body (pool_get params "bore_d")) as [b1|e]; [|eauto].
  cbn [rbind].
  destruct (recess self b1 (pool_get params "recess") (pool_get params "recess_d")
              (pool_get params "hub_d")) as [b2|e]; [|eauto].
  cbn [rbind].
  destruct (hub self b2 (pool_get params "hub_length") (pool_get params "hub_d")
              (pool_get params "bore_d")) as [b3|e]; [|eauto].
  cbn [rbind]. rewrite Hid.
  destruct (spokes_None_inner_raises self b3 _ (pool_get params "spokes_od")
              (pool_get params "spoke_width") (pool_get params "spoke_fillet") Hn)
    as [e He].
  rewrite He. simpl. eauto.
Qed.

Lemma _post_process_spokes_without_inner_diameter_witness :
  exists e, _post_process blank_gear (cq.Solid 0)
              {[ "n_spokes" := VInt 5; "spokes_od" := VFloat 18;
                 "spoke_width" := VFloat 2 ]} = Raise e.
Proof.
  apply (_post_process_spokes_without_inner_diameter blank_gear (cq.Solid 0)
           {[ "n_spokes" := VInt 5; "spokes_od" := VFloat 18;
              "spoke_width" := VFloat 2 ]}).
  - vm_compute. discriminate.
  - vm_compute. reflexivity.
Defined.
